(** * bspwm-info: a shallow embedding of [src/lib.rs]

    The status line of [bspc subscribe report] is ASCII text, so a Rust
    [&str] is modelled as a Rocq [string] (a list of [ascii]); byte indices
    and character indices then coincide, and the slicing panics of the
    source ([line[1..]], [section[1..2]]) are exactly the out-of-range
    cases.  A Rust panic is modelled as [None]. *)

From Stdlib Require Import Strings.String Strings.Ascii Lists.List Bool Lia.
Import ListNotations.
Open Scope string_scope.
Open Scope char_scope.

(** ** Data model (lines 149-178) *)

Inductive Layout := Tiling | Monocle.

Module Desktop.
Record t := mk {
  name : string;
  focused : bool;
  occupied : bool;
  urgent : bool
}.
End Desktop.

Module Monitor.
Record t := mk {
  name : string;
  desktops : list Desktop.t;
  focused : bool;
  layout : option Layout
}.
End Monitor.

Record WmRoot := mkWmRoot { monitors : list Monitor.t }.

(** ** Rust library functions on ASCII text *)

(** [char::is_uppercase], restricted to ASCII. *)
Definition is_uppercase (c : ascii) : bool :=
  let n := nat_of_ascii c in (Nat.leb 65 n && Nat.leb n 90)%nat.

(** [str::split(":")]: always at least one piece; [""] splits to [[""]]. *)
Fixpoint split_colon (s : string) : list string :=
  match s with
  | EmptyString => [EmptyString]
  | String c r =>
      if Ascii.eqb c ":" then EmptyString :: split_colon r
      else match split_colon r with
           | [] => [String c EmptyString]
           | h :: t => String c h :: t
           end
  end.

(** [monitors.last_mut().unwrap()] followed by an update of that monitor:
    panics ([None]) on an empty vector. *)
Fixpoint update_last (f : Monitor.t -> Monitor.t) (ms : list Monitor.t)
  : option (list Monitor.t) :=
  match ms with
  | [] => None
  | m :: ms' =>
      match ms' with
      | [] => Some [f m]
      | _ :: _ => option_map (cons m) (update_last f ms')
      end
  end.

Definition push_desktop (d : Desktop.t) (m : Monitor.t) : Monitor.t :=
  Monitor.mk (Monitor.name m) (Monitor.desktops m ++ [d])%list
             (Monitor.focused m) (Monitor.layout m).

Definition set_layout (l : option Layout) (m : Monitor.t) : Monitor.t :=
  Monitor.mk (Monitor.name m) (Monitor.desktops m) (Monitor.focused m) l.

(** ** [parse_line] (lines 83-147) *)

(** The [match &section[1..2]] on the layout code. *)
Definition layout_code (c : ascii) : option Layout :=
  if Ascii.eqb c "T" then Some Tiling
  else if Ascii.eqb c "M" then Some Monocle
  else None.

(** The body of the [for] loop, for one section. *)
Definition parse_section (monitors : list Monitor.t) (section : string)
  : option (list Monitor.t) :=
  match section with
  | EmptyString => None (* section.chars().nth(0).unwrap() *)
  | String input rest =>
      if Ascii.eqb input "M" || Ascii.eqb input "m" then
        Some (monitors ++ [Monitor.mk rest [] (is_uppercase input) None])%list
      else if Ascii.eqb input "O" || Ascii.eqb input "o" then
        update_last (push_desktop (Desktop.mk rest (is_uppercase input) true false)) monitors
      else if Ascii.eqb input "F" || Ascii.eqb input "f" then
        update_last (push_desktop (Desktop.mk rest (is_uppercase input) false false)) monitors
      else if Ascii.eqb input "U" || Ascii.eqb input "u" then
        update_last (push_desktop (Desktop.mk rest (is_uppercase input) true true)) monitors
      else if Ascii.eqb input "L" then
        match rest with
        | EmptyString => None (* &section[1..2] out of range *)
        | String c _ => update_last (set_layout (layout_code c)) monitors
        end
      else Some monitors
  end.

Fixpoint parse_sections (monitors : list Monitor.t) (secs : list string)
  : option (list Monitor.t) :=
  match secs with
  | [] => Some monitors
  | s :: secs' =>
      match parse_section monitors s with
      | None => None
      | Some monitors' => parse_sections monitors' secs'
      end
  end.

(** The sections of a line: [line[1..].split(":")]. *)
Definition sections (line : string) : list string :=
  match line with
  | EmptyString => []
  | String _ rest => split_colon rest
  end.

Definition parse_line (line : string) : option WmRoot :=
  match line with
  | EmptyString => None (* line[1..] out of range *)
  | String _ rest =>
      option_map mkWmRoot (parse_sections [] (split_colon rest))
  end.

(** ** [WmInfo::next] (lines 65-80) *)

(** [BufRead::read_line] into a cleared buffer: everything up to and
    including the first newline, and the rest of the stream.  The stream
    is modelled as the text [bspc] still has to print; I/O errors are not
    modelled. *)
Fixpoint read_line (stream : string) : string * string :=
  match stream with
  | EmptyString => (EmptyString, EmptyString)
  | String c r =>
      if Ascii.eqb c "010" then (String c EmptyString, r)
      else let (l, r') := read_line r in (String c l, r')
  end.

(** [Some (Some root)]: a snapshot; [Some None]: [parse_line] panicked;
    [None]: end of stream. *)
Definition next (stream : string) : option (option WmRoot) * string :=
  let (buffer, rest) := read_line stream in
  if Nat.ltb 0 (String.length buffer) then (Some (parse_line buffer), rest)
  else (None, rest).

(** ** Classification of sections by their marker *)

Definition is_monitor_marker (c : ascii) : bool :=
  Ascii.eqb c "M" || Ascii.eqb c "m".

Definition is_desktop_marker (c : ascii) : bool :=
  (Ascii.eqb c "O" || Ascii.eqb c "o")
  || (Ascii.eqb c "F" || Ascii.eqb c "f")
  || (Ascii.eqb c "U" || Ascii.eqb c "u").

Definition marker_test (p : ascii -> bool) (s : string) : bool :=
  match s with
  | EmptyString => false
  | String c _ => p c
  end.

Definition is_monitor_section := marker_test is_monitor_marker.
Definition is_desktop_section := marker_test is_desktop_marker.
Definition is_layout_section := marker_test (fun c => Ascii.eqb c "L").
Definition section_is_uppercase := marker_test is_uppercase.

(** The desktop the three desktop arms of [parse_line] build for marker
    [c] and payload [p]. *)
Definition desktop_of (c : ascii) (p : string) : Desktop.t :=
  Desktop.mk p (is_uppercase c)
    (negb (Ascii.eqb c "F" || Ascii.eqb c "f"))
    (Ascii.eqb c "U" || Ascii.eqb c "u").

Definition desktop_of_section (s : string) : Desktop.t :=
  match s with
  | EmptyString => Desktop.mk EmptyString false false false
  | String c p => desktop_of c p
  end.

(** Spec side of the grouping: the desktop sections that follow a position,
    up to the next monitor section. *)
Fixpoint desktop_sections_before_next_monitor (secs : list string) : list string :=
  match secs with
  | [] => []
  | s :: secs' =>
      if is_monitor_section s then []
      else if is_desktop_section s then s :: desktop_sections_before_next_monitor secs'
      else desktop_sections_before_next_monitor secs'
  end.

(** Spec side: for each monitor section, left to right, the desktop sections
    between it and the next monitor section. *)
Fixpoint monitor_blocks (secs : list string) : list (list string) :=
  match secs with
  | [] => []
  | s :: secs' =>
      if is_monitor_section s
      then desktop_sections_before_next_monitor secs' :: monitor_blocks secs'
      else monitor_blocks secs'
  end.

(** Append [ys] to the last list of [xss]. *)
Fixpoint app_last {A} (xss : list (list A)) (ys : list A) : list (list A) :=
  match xss with
  | [] => []
  | xs :: xss' =>
      match xss' with
      | [] => [(xs ++ ys)%list]
      | _ :: _ => xs :: app_last xss' ys
      end
  end.

Definition newline_free (s : string) : bool :=
  forallb (fun c => negb (Ascii.eqb c "010")) (list_ascii_of_string s).


(** [section[1..]]: the payload after the marker. *)
Definition payload (s : string) : string :=
  match s with
  | EmptyString => EmptyString
  | String _ p => p
  end.

(** The layout a monitor ends up with, starting from [acc], after the
    sections up to the next monitor section: the code of the last [L]
    section among them. *)
Fixpoint layout_before_next_monitor (acc : option Layout) (secs : list string)
  : option Layout :=
  match secs with
  | [] => acc
  | s :: secs' =>
      if is_monitor_section s then acc
      else if is_layout_section s then
        match s with
        | String _ (String c _) => layout_before_next_monitor (layout_code c) secs'
        | _ => layout_before_next_monitor acc secs'
        end
      else layout_before_next_monitor acc secs'
  end.

(** For each monitor section, left to right, the layout set for it. *)
Fixpoint layout_blocks (secs : list string) : list (option Layout) :=
  match secs with
  | [] => []
  | s :: secs' =>
      if is_monitor_section s
      then layout_before_next_monitor None secs' :: layout_blocks secs'
      else layout_blocks secs'
  end.

(** Apply [f] to the last element of [xs]. *)
Fixpoint map_last {A} (f : A -> A) (xs : list A) : list A :=
  match xs with
  | [] => []
  | x :: xs' =>
      match xs' with
      | [] => [f x]
      | _ :: _ => x :: map_last f xs'
      end
  end.

(** ** Lemmas on the embedding *)

Open Scope list_scope.

Lemma update_last_app f ms m :
  update_last f (ms ++ [m]) = Some (ms ++ [f m]).
Proof.
  induction ms as [| m0 ms IH]; [reflexivity |].
  simpl. rewrite IH. destruct ms; reflexivity.
Qed.

Lemma update_last_inv f ms ms' :
  update_last f ms = Some ms' ->
  exists pre m, ms = pre ++ [m] /\ ms' = pre ++ [f m].
Proof.
  revert ms'. induction ms as [| m0 ms IH]; intros ms' H; [discriminate |].
  simpl in H. destruct ms as [| m1 ms].
  - injection H as <-. exists [], m0. split; reflexivity.
  - destruct (update_last f (m1 :: ms)) as [ms1 |] eqn:E; [| discriminate].
    injection H as <-. destruct (IH ms1 eq_refl) as (pre & m & -> & ->).
    exists (m0 :: pre), m. split; reflexivity.
Qed.

Lemma update_last_nil f : update_last f [] = None.
Proof. reflexivity. Qed.

Lemma parse_sections_app ms a b :
  parse_sections ms (a ++ b) =
  match parse_sections ms a with
  | None => None
  | Some ms' => parse_sections ms' b
  end.
Proof.
  revert ms. induction a as [| s a IH]; intro ms; [reflexivity |].
  simpl. destruct (parse_section ms s); [apply IH | reflexivity].
Qed.

Lemma is_desktop_marker_cases c :
  is_desktop_marker c = true ->
  c = "O" \/ c = "o" \/ c = "F" \/ c = "f" \/ c = "U" \/ c = "u".
Proof.
  unfold is_desktop_marker. intro H.
  repeat rewrite orb_true_iff in H.
  repeat match goal with
  | H : _ \/ _ |- _ => destruct H as [H | H]
  | H : Ascii.eqb _ _ = true |- _ => apply Ascii.eqb_eq in H; subst
  end; tauto.
Qed.

Lemma parse_section_monitor ms c p :
  is_monitor_marker c = true ->
  parse_section ms (String c p) = Some (ms ++ [Monitor.mk p [] (is_uppercase c) None]).
Proof.
  intro H. unfold parse_section. unfold is_monitor_marker in H. now rewrite H.
Qed.

Lemma parse_section_desktop ms c p :
  is_desktop_marker c = true ->
  parse_section ms (String c p) = update_last (push_desktop (desktop_of c p)) ms.
Proof.
  intro H. apply is_desktop_marker_cases in H.
  repeat destruct H as [-> | H]; subst; reflexivity.
Qed.

Lemma parse_section_other ms c p ms' :
  is_monitor_marker c = false -> is_desktop_marker c = false ->
  parse_section ms (String c p) = Some ms' ->
  map Monitor.desktops ms' = map Monitor.desktops ms
  /\ map Monitor.focused ms' = map Monitor.focused ms.
Proof.
  unfold is_monitor_marker, is_desktop_marker, parse_section.
  intros Hm Hd. rewrite Hm.
  apply orb_false_iff in Hd as [Hd HU]. apply orb_false_iff in Hd as [HO HF].
  rewrite HO, HF, HU.
  destruct (Ascii.eqb c "L").
  - destruct p as [| c' p']; [discriminate |].
    intro H. apply update_last_inv in H as (pre & m & -> & ->).
    rewrite !map_app. split; reflexivity.
  - intro H. injection H as <-. split; reflexivity.
Qed.

Lemma app_last_nil {A} (xss : list (list A)) : app_last xss [] = xss.
Proof.
  induction xss as [| xs xss IH]; [reflexivity |].
  simpl. destruct xss as [| xs' xss'].
  - now rewrite app_nil_r.
  - now rewrite IH.
Qed.

Lemma app_last_cons {A} (xs : list A) xss ys :
  xss <> [] -> app_last (xs :: xss) ys = xs :: app_last xss ys.
Proof. destruct xss; [congruence | reflexivity]. Qed.

Lemma app_last_not_nil {A} (xss : list (list A)) ys :
  xss <> [] -> app_last xss ys <> [].
Proof.
  destruct xss as [| xs xss]; [congruence |]. intros _.
  destruct xss; discriminate.
Qed.

Lemma app_last_app_last {A} (xss : list (list A)) a b :
  app_last (app_last xss a) b = app_last xss (a ++ b).
Proof.
  induction xss as [| xs xss IH]; [reflexivity |].
  destruct xss as [| xs' xss'].
  - simpl. now rewrite app_assoc.
  - assert (Hn : xs' :: xss' <> []) by discriminate.
    rewrite !(app_last_cons xs) by (try apply app_last_not_nil; exact Hn).
    now rewrite IH.
Qed.

Lemma app_last_snoc {A} (xss : list (list A)) xs ys :
  app_last (xss ++ [xs]) ys = xss ++ [xs ++ ys].
Proof.
  induction xss as [| x xss IH]; [reflexivity |].
  simpl. rewrite IH. destruct xss; reflexivity.
Qed.

(** Split one step of the loop on [String c p] into its monitor, desktop
    and remaining cases, rewriting the step in [H] in the first two. *)
Ltac section_cases H c :=
  destruct (is_monitor_marker c) eqn:Hm;
  [ rewrite parse_section_monitor in H by exact Hm
  | destruct (is_desktop_marker c) eqn:Hd;
    [ rewrite parse_section_desktop in H by exact Hd | ] ].

Lemma parse_sections_focused ms secs ms' :
  parse_sections ms secs = Some ms' ->
  map Monitor.focused ms' =
  map Monitor.focused ms ++ map section_is_uppercase (filter is_monitor_section secs).
Proof.
  revert ms. induction secs as [| s secs IH]; intros ms H.
  - injection H as <-. now rewrite app_nil_r.
  - simpl in H. destruct (parse_section ms s) as [ms1 |] eqn:E; [| discriminate].
    destruct s as [| c p]; [discriminate |].
    apply IH in H. rewrite H. simpl. unfold is_monitor_section at 1. simpl.
    section_cases E c.
    + injection E as <-. rewrite map_app, <- app_assoc. reflexivity.
    + apply update_last_inv in E as (pre & m & -> & ->).
      rewrite !map_app. reflexivity.
    + apply parse_section_other in E as [_ ->]; auto.
Qed.

Lemma parse_sections_all_desktops ms secs ms' :
  parse_sections ms secs = Some ms' ->
  concat (map Monitor.desktops ms') =
  concat (map Monitor.desktops ms)
  ++ map desktop_of_section (filter is_desktop_section secs).
Proof.
  revert ms. induction secs as [| s secs IH]; intros ms H.
  - injection H as <-. now rewrite app_nil_r.
  - simpl in H. destruct (parse_section ms s) as [ms1 |] eqn:E; [| discriminate].
    destruct s as [| c p]; [discriminate |].
    apply IH in H. rewrite H. simpl. unfold is_desktop_section at 1. simpl.
    section_cases E c.
    + injection E as <-.
      assert (Hd : is_desktop_marker c = false).
      { unfold is_monitor_marker in Hm. apply orb_true_iff in Hm.
        destruct Hm as [Hm | Hm]; apply Ascii.eqb_eq in Hm; subst; reflexivity. }
      rewrite Hd, map_app, concat_app. simpl. now rewrite app_nil_r.
    + apply update_last_inv in E as (pre & m & -> & ->).
      rewrite !map_app, !concat_app. simpl. rewrite !app_nil_r, <- !app_assoc.
      reflexivity.
    + apply parse_section_other in E as [-> _]; auto.
Qed.

Lemma parse_sections_blocks ms secs ms' :
  parse_sections ms secs = Some ms' ->
  map Monitor.desktops ms' =
  app_last (map Monitor.desktops ms)
    (map desktop_of_section (desktop_sections_before_next_monitor secs))
  ++ map (map desktop_of_section) (monitor_blocks secs).
Proof.
  revert ms. induction secs as [| s secs IH]; intros ms H.
  - injection H as <-. simpl. now rewrite app_last_nil, app_nil_r.
  - simpl in H. destruct (parse_section ms s) as [ms1 |] eqn:E; [| discriminate].
    destruct s as [| c p]; [discriminate |].
    apply IH in H. rewrite H. simpl.
    section_cases E c.
    + injection E as <-. rewrite map_app. cbn [map Monitor.desktops].
      rewrite app_last_snoc, app_last_nil. simpl. rewrite <- app_assoc.
      reflexivity.
    + apply update_last_inv in E as (pre & m & -> & ->).
      rewrite !map_app. cbn [map Monitor.desktops push_desktop].
      rewrite !app_last_snoc, <- !app_assoc. reflexivity.
    + apply parse_section_other in E as [-> _]; auto.
Qed.

(** Before the first monitor section the vector of monitors stays empty,
    if the loop has not panicked. *)
Lemma parse_sections_no_monitor secs :
  forallb (fun s => negb (is_monitor_section s)) secs = true ->
  parse_sections [] secs = None \/ parse_sections [] secs = Some [].
Proof.
  induction secs as [| s secs IH]; intro H; [right; reflexivity |].
  simpl in H. apply andb_true_iff in H as [Hs H].
  cbn [parse_sections]. destruct s as [| c p]; [left; reflexivity |].
  apply negb_true_iff in Hs. unfold is_monitor_section, marker_test in Hs.
  destruct (is_desktop_marker c) eqn:Hd.
  - rewrite parse_section_desktop by exact Hd. left; reflexivity.
  - destruct (parse_section [] (String c p)) as [ms1 |] eqn:E; [| left; reflexivity].
    pose proof (parse_section_other _ _ _ _ Hs Hd E) as [Hds _].
    destruct ms1; [apply IH, H | discriminate].
Qed.

Lemma parse_section_nil_panics s :
  (is_desktop_section s || is_layout_section s) = true ->
  parse_section [] s = None.
Proof.
  destruct s as [| c p]; [discriminate |].
  unfold is_desktop_section, is_layout_section, marker_test.
  destruct (is_desktop_marker c) eqn:Hd; rewrite ?orb_true_l, ?orb_false_l.
  - intros _. rewrite parse_section_desktop by exact Hd. reflexivity.
  - intro HL. apply Ascii.eqb_eq in HL. subst c.
    destruct p; reflexivity.
Qed.

Open Scope string_scope.

Lemma read_line_newline_free l rest :
  newline_free l = true ->
  read_line (l ++ String "010" rest) = (l ++ String "010" EmptyString, rest).
Proof.
  induction l as [| c l IH]; intro H; [reflexivity |].
  unfold newline_free in H. simpl in H. apply andb_true_iff in H as [Hc H].
  apply negb_true_iff in Hc. simpl. rewrite Hc.
  rewrite IH by exact H. reflexivity.
Qed.

Lemma split_colon_snoc s c :
  Ascii.eqb c ":" = false ->
  exists init q, split_colon (s ++ String c EmptyString) =
                 (init ++ [(q ++ String c EmptyString)%string])%list.
Proof.
  intro Hc. induction s as [| x s IH].
  - exists [], EmptyString. simpl. rewrite Hc. reflexivity.
  - destruct IH as (init & q & IH). simpl. rewrite IH.
    destruct (Ascii.eqb x ":").
    + exists (EmptyString :: init), q. reflexivity.
    + destruct init as [| h t].
      * exists [], (String x q). reflexivity.
      * exists (String x h :: t), q. reflexivity.
Qed.

(** ** Claims *)

(** C1 (corrected): a desktop or layout section ([O/o], [F/f], [U/u], [L])
    before any monitor section makes [parse_line] panic at
    [monitors.last_mut().unwrap()] (or earlier): no error value is
    returned. *)
Theorem parse_line_desktop_before_monitor_panics
  (line : string) (pre post : list string) (s : string) :
  sections line = (pre ++ s :: post)%list ->
  forallb (fun x => negb (is_monitor_section x)) pre = true ->
  (is_desktop_section s || is_layout_section s) = true ->
  parse_line line = None.
Proof.
  intros Hsec Hpre Hs. destruct line as [| x rest]; [reflexivity |].
  simpl in Hsec. simpl. rewrite Hsec, parse_sections_app.
  destruct (parse_sections_no_monitor pre Hpre) as [-> | ->]; [reflexivity |].
  simpl. rewrite parse_section_nil_panics by exact Hs. reflexivity.
Qed.

Lemma parse_line_desktop_before_monitor_panics_witness :
  sections "WO1" = ([] ++ ["O1"] ++ [])%list
  /\ parse_line "WO1" = None.
Proof.
  split; [reflexivity |].
  apply (parse_line_desktop_before_monitor_panics "WO1" [] [] "O1");
    reflexivity.
Defined.

Lemma parse_line_desktop_first_crashes : parse_line "WO1" = None.
Proof. reflexivity. Qed.

(** C2 (corrected): what [parse_line] returns on ["WM1:O1:F2:Ff3:LT"]:
    every marker there is uppercase, so the monitor and all its desktops
    are focused, and the third desktop (marker [F], payload ["f3"]) is
    named ["f3"]. *)
Theorem parse_line_example_result :
  parse_line "WM1:O1:F2:Ff3:LT" =
  Some (mkWmRoot
    [Monitor.mk "1"
       [Desktop.mk "1" true true false;
        Desktop.mk "2" true false false;
        Desktop.mk "f3" true false false]
       true (Some Tiling)]).
Proof. vm_compute. reflexivity. Qed.

Lemma parse_line_example_not_as_claimed :
  parse_line "WM1:O1:F2:Ff3:LT" <>
  Some (mkWmRoot
    [Monitor.mk "1"
       [Desktop.mk "1" false true false;
        Desktop.mk "2" false false false;
        Desktop.mk "3" false false false]
       false (Some Tiling)]).
Proof. vm_compute. intro H. discriminate H. Qed.

(** C3 (corrected): only uppercase [L] is the layout marker; a section
    starting with lowercase [l] falls into the catch-all arm and changes
    nothing. *)
Theorem parse_sections_lowercase_l_ignored ms rest secs :
  parse_section ms (String "l" rest) = Some ms
  /\ parse_sections ms (String "l" rest :: secs) = parse_sections ms secs.
Proof. split; reflexivity. Qed.

Lemma lowercase_l_differs_from_L :
  parse_line "WM1:lT" = Some (mkWmRoot [Monitor.mk "1" [] true None])
  /\ parse_line "WM1:LT" = Some (mkWmRoot [Monitor.mk "1" [] true (Some Tiling)]).
Proof. split; reflexivity. Qed.

(** C4 (corrected): a line made of the sentinel alone panics: its only
    section is empty and [section.chars().nth(0).unwrap()] fails. *)
Theorem parse_line_sentinel_only_panics (c : ascii) :
  parse_line (String c EmptyString) = None.
Proof. reflexivity. Qed.

Lemma parse_line_W_panics : parse_line "W" = None.
Proof. reflexivity. Qed.

(** C5 (corrected): after a monitor, [L] with a non-empty payload sets the
    last monitor's layout from the payload's first character ([T]: Tiling,
    [M]: Monocle, otherwise unset); a bare [L] section panics at
    [&section[1..2]]. *)
Theorem parse_section_layout_after_monitor ms m c p :
  parse_section (ms ++ [m])%list (String "L" (String c p)) =
    Some (ms ++ [set_layout (if Ascii.eqb c "T" then Some Tiling
                             else if Ascii.eqb c "M" then Some Monocle
                             else None) m])%list
  /\ parse_section (ms ++ [m])%list (String "L" EmptyString) = None.
Proof.
  split; [| reflexivity].
  unfold parse_section. simpl. rewrite update_last_app. reflexivity.
Qed.

Lemma parse_line_bare_L_panics : parse_line "WM1:L" = None.
Proof. reflexivity. Qed.

(** C6 (confirmed): every desktop [parse_line] produces that is urgent is
    also occupied. *)
Theorem parse_line_urgent_occupied line r m d :
  parse_line line = Some r ->
  In m (monitors r) -> In d (Monitor.desktops m) ->
  Desktop.urgent d = true -> Desktop.occupied d = true.
Proof.
  intros H Hm Hd Hu. destruct line as [| x rest]; [discriminate |].
  simpl in H. destruct (parse_sections [] (split_colon rest)) as [ms |] eqn:E;
    [| discriminate].
  injection H as <-. simpl in Hm.
  apply parse_sections_all_desktops in E. simpl in E.
  assert (Hin : In d (concat (map Monitor.desktops ms))).
  { apply in_concat. exists (Monitor.desktops m). split; [apply in_map |]; assumption. }
  rewrite E in Hin. apply in_map_iff in Hin as (s & <- & _).
  destruct s as [| c p]; [discriminate |].
  simpl in Hu |- *. apply orb_true_iff in Hu as [Hu | Hu];
    apply Ascii.eqb_eq in Hu; subst; reflexivity.
Qed.

Lemma parse_line_urgent_occupied_witness :
  let r := mkWmRoot [Monitor.mk "1" [Desktop.mk "2" true true true] false None] in
  parse_line "Wm1:U2" = Some r /\ Desktop.occupied (Desktop.mk "2" true true true) = true.
Proof.
  intro r. split; [reflexivity |].
  apply (parse_line_urgent_occupied "Wm1:U2" r
           (Monitor.mk "1" [Desktop.mk "2" true true true] false None));
    simpl; auto.
Defined.

(** C7 (confirmed): on success, there are as many monitors as sections
    whose marker is [M] or [m]. *)
Theorem parse_line_monitor_count line r :
  parse_line line = Some r ->
  length (monitors r) = length (filter is_monitor_section (sections line)).
Proof.
  intro H. destruct line as [| x rest]; [discriminate |].
  simpl in H. destruct (parse_sections [] (split_colon rest)) as [ms |] eqn:E;
    [| discriminate].
  injection H as <-. apply parse_sections_focused in E. simpl in E |- *.
  rewrite <- (length_map Monitor.focused), E, length_map. reflexivity.
Qed.

Lemma parse_line_monitor_count_witness :
  parse_line "WM1:O1:mB:FX" =
    Some (mkWmRoot [Monitor.mk "1" [Desktop.mk "1" true true false] true None;
                    Monitor.mk "B" [Desktop.mk "X" true false false] false None])
  /\ 2 = length (filter is_monitor_section (sections "WM1:O1:mB:FX")).
Proof.
  split; [reflexivity |].
  apply (parse_line_monitor_count "WM1:O1:mB:FX"
    (mkWmRoot [Monitor.mk "1" [Desktop.mk "1" true true false] true None;
               Monitor.mk "B" [Desktop.mk "X" true false false] false None])).
  reflexivity.
Defined.

(** C8 (confirmed): on success, the focus flags of the monitors, and of all
    desktops in order, are the uppercase tests of the markers of the
    monitor sections, and of the desktop sections, in order. *)
Theorem parse_line_focused_flags line r :
  parse_line line = Some r ->
  map Monitor.focused (monitors r) =
    map section_is_uppercase (filter is_monitor_section (sections line))
  /\ map Desktop.focused (concat (map Monitor.desktops (monitors r))) =
    map section_is_uppercase (filter is_desktop_section (sections line)).
Proof.
  intro H. destruct line as [| x rest]; [discriminate |].
  simpl in H. destruct (parse_sections [] (split_colon rest)) as [ms |] eqn:E;
    [| discriminate].
  injection H as <-. simpl.
  split.
  - apply parse_sections_focused in E. exact E.
  - apply parse_sections_all_desktops in E. simpl in E. rewrite E, map_map.
    apply map_ext. intros [| c p]; reflexivity.
Qed.

Lemma parse_line_focused_flags_witness :
  parse_line "Wm1:O1:u2:MB:fX" =
    Some (mkWmRoot [Monitor.mk "1" [Desktop.mk "1" true true false;
                                    Desktop.mk "2" false true true] false None;
                    Monitor.mk "B" [Desktop.mk "X" false false false] true None])
  /\ [false; true] = map section_is_uppercase
                       (filter is_monitor_section (sections "Wm1:O1:u2:MB:fX")).
Proof.
  split; [reflexivity |].
  apply (parse_line_focused_flags "Wm1:O1:u2:MB:fX"
    (mkWmRoot [Monitor.mk "1" [Desktop.mk "1" true true false;
                               Desktop.mk "2" false true true] false None;
               Monitor.mk "B" [Desktop.mk "X" false false false] true None])).
  reflexivity.
Defined.

(** C9 (confirmed): on success, the desktops of the i-th monitor are, in
    order, the desktops built from the desktop sections between the i-th
    monitor section and the next monitor section. *)
Theorem parse_line_desktop_grouping line r :
  parse_line line = Some r ->
  map Monitor.desktops (monitors r) =
    map (map desktop_of_section) (monitor_blocks (sections line)).
Proof.
  intro H. destruct line as [| x rest]; [discriminate |].
  simpl in H. destruct (parse_sections [] (split_colon rest)) as [ms |] eqn:E;
    [| discriminate].
  injection H as <-. apply parse_sections_blocks in E. exact E.
Qed.

Lemma parse_line_desktop_grouping_witness :
  parse_line "WM1:O1:LM:f2:mB:UX" =
    Some (mkWmRoot [Monitor.mk "1" [Desktop.mk "1" true true false;
                                    Desktop.mk "2" false false false] true (Some Monocle);
                    Monitor.mk "B" [Desktop.mk "X" true true true] false None])
  /\ [[Desktop.mk "1" true true false; Desktop.mk "2" false false false];
      [Desktop.mk "X" true true true]] =
     map (map desktop_of_section) (monitor_blocks (sections "WM1:O1:LM:f2:mB:UX")).
Proof.
  split; [reflexivity |].
  apply (parse_line_desktop_grouping "WM1:O1:LM:f2:mB:UX"
    (mkWmRoot [Monitor.mk "1" [Desktop.mk "1" true true false;
                               Desktop.mk "2" false false false] true (Some Monocle);
               Monitor.mk "B" [Desktop.mk "X" true true true] false None])).
  reflexivity.
Defined.

(** C10 (confirmed): [next] hands the line read, newline included, to
    [parse_line]; so when the last section of that line carries a name
    (marker [M/m], [O/o], [F/f] or [U/u]), the name of the last monitor,
    or of the last desktop of the last monitor, ends with the newline. *)
Theorem next_keeps_newline_in_last_name (l rest : string) r c p :
  newline_free l = true ->
  fst (next (l ++ String "010" rest)) = Some (Some r) ->
  last (sections (l ++ String "010" EmptyString)) EmptyString = String c p ->
  (is_monitor_marker c || is_desktop_marker c) = true ->
  (exists q, p = q ++ String "010" EmptyString)
  /\ (is_monitor_marker c = true ->
      exists ms m, monitors r = (ms ++ [m])%list /\ Monitor.name m = p)
  /\ (is_desktop_marker c = true ->
      exists ms m ds d, monitors r = (ms ++ [m])%list
        /\ Monitor.desktops m = (ds ++ [d])%list /\ Desktop.name d = p).
Proof.
  intros Hnf Hnext Hlast Hc.
  unfold next in Hnext. rewrite read_line_newline_free in Hnext by exact Hnf.
  replace (Nat.ltb 0 (String.length (l ++ String "010" EmptyString))) with true
    in Hnext by (induction l; reflexivity).
  simpl in Hnext. injection Hnext as Hparse.
  destruct l as [| x l'].
  { simpl in Hlast. discriminate. }
  simpl in Hlast, Hparse.
  destruct (split_colon_snoc l' "010" eq_refl) as (init & q & Hsplit).
  rewrite Hsplit, last_last in Hlast.
  assert (Hp : exists q', p = q' ++ String "010" EmptyString /\ q = String c q').
  { destruct q as [| c' q'].
    - simpl in Hlast. injection Hlast as <- _. discriminate Hc.
    - simpl in Hlast. injection Hlast as <- <-. exists q'. split; reflexivity. }
  destruct Hp as (q' & Hp & ->).
  change (String c q' ++ String "010" EmptyString)
    with (String c (q' ++ String "010" EmptyString)) in Hsplit.
  rewrite <- Hp in Hsplit.
  rewrite Hsplit, parse_sections_app in Hparse.
  destruct (parse_sections [] init) as [ms1 |]; [| discriminate].
  cbn [parse_sections] in Hparse.
  destruct (parse_section ms1 (String c p)) as [ms2 |] eqn:E; [| discriminate].
  injection Hparse as <-. simpl.
  split; [exists q'; exact Hp |]. split; intro H.
  - rewrite parse_section_monitor in E by exact H. injection E as <-.
    eexists _, _. split; reflexivity.
  - rewrite parse_section_desktop in E by exact H.
    apply update_last_inv in E as (pre & m & _ & ->).
    exists pre, (push_desktop (desktop_of c p) m), (Monitor.desktops m), (desktop_of c p).
    repeat split; reflexivity.
Qed.

Lemma next_keeps_newline_in_last_name_witness :
  exists q, String "1" (String "010" EmptyString) = q ++ String "010" EmptyString.
Proof.
  apply (next_keeps_newline_in_last_name "WM1:O1" "WM1:O2"
    (mkWmRoot [Monitor.mk "1"
                 [Desktop.mk (String "1" (String "010" EmptyString)) true true false]
                 true None])
    "O" (String "1" (String "010" EmptyString)));
    reflexivity.
Defined.

(** ** Further properties of [parse_line] and [WmInfo::next] *)

Open Scope list_scope.

Lemma parse_section_other_cases ms c p :
  is_monitor_marker c = false -> is_desktop_marker c = false ->
  parse_section ms (String c p) =
    if Ascii.eqb c "L" then
      match p with
      | EmptyString => None
      | String c' _ => update_last (set_layout (layout_code c')) ms
      end
    else Some ms.
Proof.
  unfold is_monitor_marker, is_desktop_marker, parse_section.
  intros Hm Hd. rewrite Hm.
  apply orb_false_iff in Hd as [Hd HU]. apply orb_false_iff in Hd as [HO HF].
  rewrite HO, HF, HU. reflexivity.
Qed.

Lemma desktop_marker_not_L c :
  is_desktop_marker c = true -> Ascii.eqb c "L" = false.
Proof.
  intro H. apply is_desktop_marker_cases in H.
  repeat destruct H as [-> | H]; subst; reflexivity.
Qed.

Lemma map_last_snoc {A} (f : A -> A) xs x :
  map_last f (xs ++ [x]) = xs ++ [f x].
Proof.
  induction xs as [| y xs IH]; [reflexivity |].
  simpl. rewrite IH. destruct xs; reflexivity.
Qed.

Lemma map_last_id {A} (xs : list A) : map_last (fun x => x) xs = xs.
Proof.
  induction xs as [| x xs IH]; [reflexivity |].
  simpl. destruct xs; [reflexivity | now rewrite IH].
Qed.

Lemma parse_sections_names ms secs ms' :
  parse_sections ms secs = Some ms' ->
  map Monitor.name ms' =
  map Monitor.name ms ++ map payload (filter is_monitor_section secs).
Proof.
  revert ms. induction secs as [| s secs IH]; intros ms H.
  - injection H as <-. now rewrite app_nil_r.
  - simpl in H. destruct (parse_section ms s) as [ms1 |] eqn:E; [| discriminate].
    destruct s as [| c p]; [discriminate |].
    apply IH in H. rewrite H. simpl. unfold is_monitor_section at 1. simpl.
    section_cases E c.
    + injection E as <-. rewrite map_app, <- app_assoc. reflexivity.
    + apply update_last_inv in E as (pre & m & -> & ->).
      rewrite !map_app. reflexivity.
    + rewrite parse_section_other_cases in E by assumption.
      destruct (Ascii.eqb c "L"); [destruct p as [| c' p']; [discriminate |] |].
      * apply update_last_inv in E as (pre & m & -> & ->).
        rewrite !map_app. reflexivity.
      * injection E as <-. reflexivity.
Qed.

Lemma parse_sections_layouts ms secs ms' :
  parse_sections ms secs = Some ms' ->
  map Monitor.layout ms' =
  map_last (fun l => layout_before_next_monitor l secs) (map Monitor.layout ms)
  ++ layout_blocks secs.
Proof.
  revert ms. induction secs as [| s secs IH]; intros ms H.
  - injection H as <-. simpl. now rewrite map_last_id, app_nil_r.
  - simpl in H. destruct (parse_section ms s) as [ms1 |] eqn:E; [| discriminate].
    destruct s as [| c p]; [discriminate |].
    apply IH in H. rewrite H. simpl.
    section_cases E c.
    + injection E as <-. rewrite map_app. cbn [map Monitor.layout].
      rewrite map_last_snoc, map_last_id, <- app_assoc. reflexivity.
    + rewrite (desktop_marker_not_L c Hd).
      apply update_last_inv in E as (pre & m & -> & ->).
      rewrite !map_app. cbn [map Monitor.layout push_desktop].
      rewrite !map_last_snoc. reflexivity.
    + rewrite parse_section_other_cases in E by assumption.
      destruct (Ascii.eqb c "L"); [destruct p as [| c' p']; [discriminate |] |].
      * apply update_last_inv in E as (pre & m & -> & ->).
        rewrite !map_app. cbn [map Monitor.layout set_layout].
        rewrite !map_last_snoc. reflexivity.
      * injection E as <-. reflexivity.
Qed.

Lemma parse_sections_success ms secs :
  (forall s, In s secs -> s <> EmptyString /\ s <> "L"%string) ->
  (ms = [] -> forall pre s post, secs = pre ++ s :: post ->
     (is_desktop_section s || is_layout_section s) = true ->
     existsb is_monitor_section pre = true) ->
  exists ms', parse_sections ms secs = Some ms'.
Proof.
  revert ms. induction secs as [| s secs IH]; intros ms Hs Hord;
    [exists ms; reflexivity |].
  destruct (Hs s (or_introl eq_refl)) as [Hne HnL].
  assert (Hs' : forall x, In x secs -> x <> EmptyString /\ x <> "L"%string)
    by (intros x Hx; apply Hs; right; exact Hx).
  destruct s as [| c p]; [congruence |].
  assert (Hnil : (is_desktop_section (String c p) || is_layout_section (String c p))
                 = true -> ms <> []).
  { intros Hdl ->. specialize (Hord eq_refl [] (String c p) secs eq_refl Hdl).
    discriminate. }
  cbn [parse_sections].
  destruct (is_monitor_marker c) eqn:Hm.
  - rewrite parse_section_monitor by exact Hm. apply IH; [exact Hs' |].
    intro E. destruct ms; discriminate.
  - destruct (is_desktop_marker c) eqn:Hd.
    + rewrite parse_section_desktop by exact Hd.
      assert (Hms : ms <> []).
      { apply Hnil. unfold is_desktop_section, marker_test. now rewrite Hd. }
      destruct (exists_last Hms) as (pre & m & ->).
      rewrite update_last_app. apply IH; [exact Hs' |].
      intro E. destruct pre; discriminate.
    + rewrite parse_section_other_cases by assumption.
      destruct (Ascii.eqb c "L") eqn:HL.
      * apply Ascii.eqb_eq in HL. subst c.
        destruct p as [| c' p']; [congruence |].
        assert (Hms : ms <> []) by (apply Hnil; reflexivity).
        destruct (exists_last Hms) as (pre & m & ->).
        rewrite update_last_app. apply IH; [exact Hs' |].
        intro E. destruct pre; discriminate.
      * apply IH; [exact Hs' |].
        intros E pre s post -> Hdl.
        specialize (Hord E (String c p :: pre) s post eq_refl Hdl).
        simpl in Hord. unfold is_monitor_section at 1, marker_test in Hord.
        rewrite Hm in Hord. exact Hord.
Qed.


Lemma existsb_false_forallb_negb {A} (f : A -> bool) xs :
  existsb f xs = false -> forallb (fun x => negb (f x)) xs = true.
Proof.
  induction xs as [| x xs IH]; [reflexivity |].
  simpl. intro H. apply orb_false_iff in H as [Hx H].
  rewrite Hx, (IH H). reflexivity.
Qed.

Lemma split_colon_not_nil s : split_colon s <> [].
Proof.
  destruct s as [| c s]; [discriminate |]. simpl.
  destruct (Ascii.eqb c ":"); [discriminate |].
  destruct (split_colon s); discriminate.
Qed.

Lemma split_colon_app_colon s t :
  split_colon (s ++ String ":" t)%string = split_colon s ++ split_colon t.
Proof.
  induction s as [| x s IH]; [reflexivity |].
  simpl. rewrite IH. destruct (Ascii.eqb x ":"); [reflexivity |].
  destruct (split_colon s) eqn:E; [exfalso; exact (split_colon_not_nil s E) |].
  reflexivity.
Qed.

Lemma read_line_cons c r :
  exists l r', read_line (String c r) = (String c l, r').
Proof.
  simpl. destruct (Ascii.eqb c "010"); [eauto |].
  destruct (read_line r). eauto.
Qed.

Lemma read_line_newline_free_end l :
  newline_free l = true -> read_line l = (l, EmptyString).
Proof.
  induction l as [| c l IH]; intro H; [reflexivity |].
  unfold newline_free in H. simpl in H. apply andb_true_iff in H as [Hc H].
  apply negb_true_iff in Hc. simpl. rewrite Hc, IH by exact H. reflexivity.
Qed.

(** X1: a section whose marker is none of [M m O o F f U u L] is skipped by
    the catch-all arm [_ => {}]. *)
Theorem parse_sections_unknown_marker_skipped ms c p secs :
  is_monitor_marker c = false -> is_desktop_marker c = false ->
  Ascii.eqb c "L" = false ->
  parse_sections ms (String c p :: secs) = parse_sections ms secs.
Proof.
  intros Hm Hd HL. cbn [parse_sections].
  rewrite parse_section_other_cases by assumption. rewrite HL. reflexivity.
Qed.

Lemma parse_sections_unknown_marker_skipped_witness :
  parse_sections [] ["Gx"%string; "M1"%string] = parse_sections [] ["M1"%string].
Proof.
  apply (parse_sections_unknown_marker_skipped [] "G" "x" ["M1"%string]);
    reflexivity.
Defined.

(** X2: [parse_line] returns a snapshot exactly when the line is not empty,
    no section is empty or a bare [L], and every desktop or layout section
    has a monitor section before it. *)
Theorem parse_line_some_iff line :
  parse_line line <> None <->
  line <> EmptyString
  /\ (forall s, In s (sections line) -> s <> EmptyString /\ s <> "L"%string)
  /\ (forall pre s post, sections line = pre ++ s :: post ->
        (is_desktop_section s || is_layout_section s) = true ->
        existsb is_monitor_section pre = true).
Proof.
  split.
  - intro H. destruct line as [| x rest]; [simpl in H; congruence |].
    simpl in H |- *. split; [discriminate |]. split.
    + intros s Hin. apply in_split in Hin as (pre & post & Hsplit).
      rewrite Hsplit, parse_sections_app in H.
      destruct (parse_sections [] pre) as [ms1 |]; [| simpl in H; congruence].
      cbn [parse_sections] in H.
      split; intros ->; simpl in H; congruence.
    + intros pre s post Hsplit Hdl.
      destruct (existsb is_monitor_section pre) eqn:Eb; [reflexivity |].
      exfalso. apply H. rewrite Hsplit, parse_sections_app.
      apply existsb_false_forallb_negb in Eb.
      destruct (parse_sections_no_monitor pre Eb) as [-> | ->]; [reflexivity |].
      cbn [parse_sections]. rewrite parse_section_nil_panics by exact Hdl.
      reflexivity.
  - intros (Hne & Hs & Hord). destruct line as [| x rest]; [congruence |].
    simpl in Hs, Hord |- *.
    destruct (parse_sections_success [] (split_colon rest) Hs (fun _ => Hord))
      as [ms' ->].
    discriminate.
Qed.

(** X3: on success, the monitors' names are, in order, the payloads
    [section[1..]] of the monitor sections. *)
Theorem parse_line_monitor_names line r :
  parse_line line = Some r ->
  map Monitor.name (monitors r) =
    map payload (filter is_monitor_section (sections line)).
Proof.
  intro H. destruct line as [| x rest]; [discriminate |].
  simpl in H. destruct (parse_sections [] (split_colon rest)) as [ms |] eqn:E;
    [| discriminate].
  injection H as <-. apply parse_sections_names in E. exact E.
Qed.

Lemma parse_line_monitor_names_witness :
  parse_line "WMDP-1:O1:mHDMI-2"%string =
    Some (mkWmRoot [Monitor.mk "DP-1" [Desktop.mk "1" true true false] true None;
                    Monitor.mk "HDMI-2" [] false None])
  /\ ["DP-1"%string; "HDMI-2"%string] =
     map payload (filter is_monitor_section (sections "WMDP-1:O1:mHDMI-2")).
Proof.
  split; [reflexivity |].
  apply (parse_line_monitor_names "WMDP-1:O1:mHDMI-2"
    (mkWmRoot [Monitor.mk "DP-1" [Desktop.mk "1" true true false] true None;
               Monitor.mk "HDMI-2" [] false None])).
  reflexivity.
Defined.

(** X4: on success, each monitor's layout is the code of the last [L]
    section between its monitor section and the next one ([T]: Tiling,
    [M]: Monocle, other: unset), and unset when there is none. *)
Theorem parse_line_monitor_layouts line r :
  parse_line line = Some r ->
  map Monitor.layout (monitors r) = layout_blocks (sections line).
Proof.
  intro H. destruct line as [| x rest]; [discriminate |].
  simpl in H. destruct (parse_sections [] (split_colon rest)) as [ms |] eqn:E;
    [| discriminate].
  injection H as <-. apply parse_sections_layouts in E. exact E.
Qed.

Lemma parse_line_monitor_layouts_witness :
  parse_line "WMa:LT:O1:LM:mb:LX"%string =
    Some (mkWmRoot [Monitor.mk "a" [Desktop.mk "1" true true false] true (Some Monocle);
                    Monitor.mk "b" [] false None])
  /\ [Some Monocle; None] = layout_blocks (sections "WMa:LT:O1:LM:mb:LX").
Proof.
  split; [reflexivity |].
  apply (parse_line_monitor_layouts "WMa:LT:O1:LM:mb:LX"
    (mkWmRoot [Monitor.mk "a" [Desktop.mk "1" true true false] true (Some Monocle);
               Monitor.mk "b" [] false None])).
  reflexivity.
Defined.

(** X5: [next] reports the end of the sequence ([None]) exactly when the
    stream is exhausted, and once it is, every further call does so again. *)
Theorem next_none_iff_stream_empty stream :
  (fst (next stream) = None <-> stream = EmptyString)
  /\ next EmptyString = (None, EmptyString).
Proof.
  split; [| reflexivity]. split; [| intros ->; reflexivity].
  destruct stream as [| c r]; [reflexivity |].
  destruct (read_line_cons c r) as (l & r' & E).
  unfold next. rewrite E. simpl. discriminate.
Qed.

(** X6: [next] consumes exactly one line of the stream, newline included,
    parses it, and leaves the rest; a last line without a newline is
    consumed and parsed whole. *)
Theorem next_consumes_one_line l rest :
  newline_free l = true ->
  next (l ++ String "010" rest)%string
    = (Some (parse_line (l ++ String "010" EmptyString)%string), rest)
  /\ (l <> EmptyString -> next l = (Some (parse_line l), EmptyString)).
Proof.
  intro Hnf. split.
  - unfold next. rewrite read_line_newline_free by exact Hnf.
    replace (Nat.ltb 0 (String.length (l ++ String "010" EmptyString))) with true
      by (induction l; reflexivity).
    reflexivity.
  - intro Hne. unfold next. rewrite read_line_newline_free_end by exact Hnf.
    destruct l as [| c l']; [congruence | reflexivity].
Qed.

Lemma next_consumes_one_line_witness :
  next ("WM1:O1" ++ String "010" "WM1:F1")%string
    = (Some (parse_line ("WM1:O1" ++ String "010" EmptyString)%string), "WM1:F1"%string)
  /\ ("WM1:O1"%string <> EmptyString ->
      next "WM1:O1"%string = (Some (parse_line "WM1:O1"), EmptyString)).
Proof.
  apply (next_consumes_one_line "WM1:O1" "WM1:F1"). reflexivity.
Defined.



(** X8: parsing is a single left-to-right pass: extending a line with [:]
    and more sections continues from the monitors reached on the original
    line (and panics if the original line does). *)
Theorem parse_line_append_sections c line more :
  parse_line (String c (line ++ String ":" more))
  = match parse_line (String c line) with
    | None => None
    | Some r => option_map mkWmRoot (parse_sections (monitors r) (split_colon more))
    end.
Proof.
  simpl. rewrite split_colon_app_colon, parse_sections_app.
  destruct (parse_sections [] (split_colon line)); reflexivity.
Qed.
